(** * The Vanilla.js recipe of create-tauri-app

    A shallow embedding of [tooling/create-tauri-app/src/recipes/vanilla.ts]:
    the recipe object [vanillajs] with its [configUpdate], [preInit] and
    [postInit] members, and the properties of these three functions.

    A JavaScript object used as a record of settings is a finite map from
    property names to values ([gmap string JsVal]); the hooks that log or
    generate files are state transformers over a [World] that may complete
    normally or with a thrown value. *)

From Stdlib Require Import Ascii.
From stdpp Require Import gmap strings list fin_maps.

Local Open Scope string_scope.

(** ** JavaScript values *)

(** The primitive values a configuration can hold, and error objects (the
    values the runtime and the libraries throw).  A Number is represented by
    its canonical rendering, the string [Number::toString] yields for it: the
    recipe only copies configuration values or converts them to strings. *)
Inductive JsVal : Type :=
  | VUndefined
  | VNull
  | VBool (b : bool)
  | VNum (repr : string)
  | VStr (s : string)
  | VSymbol (description : string)
  | VError (name message : string).

(** How an evaluation ends: with a value, or with a thrown value.  For an
    [async] function these are the fulfilment and the rejection of the
    promise it returns. *)
Inductive Completion (A : Type) : Type :=
  | Normal (a : A)
  | Throw (e : JsVal).
Arguments Normal {A} a.
Arguments Throw {A} e.

(** The abstract operation ToString, as a template literal applies it to
    each substitution. *)
Definition ToString (v : JsVal) : Completion string :=
  match v with
  | VUndefined => Normal "undefined"
  | VNull => Normal "null"
  | VBool true => Normal "true"
  | VBool false => Normal "false"
  | VNum repr => Normal repr
  | VStr s => Normal s
  | VSymbol _ => Throw (VError "TypeError" "Cannot convert a Symbol value to a string")
  | VError name message =>
      Normal (if String.eqb name "" then message
              else if String.eqb message "" then name
              else name +:+ ": " +:+ message)
  end.

(** ** Project configuration *)

(** The [cfg] object: property name to value. *)
Abbreviation Config := (gmap string JsVal).

(** Property read [o.k]: an absent property reads as [undefined]. *)
Definition get (o : Config) (k : string) : JsVal := default VUndefined (o !! k).

(** ** configUpdate *)

(** [packageManager === "yarn" ? "yarn" : "npm run"], the sub-expression
    shared by lines 17, 19 and 57. *)
Definition runner (packageManager : string) : string :=
  if String.eqb packageManager "yarn" then "yarn" else "npm run".

(** [configUpdate: ({ cfg, packageManager }) => ({ ...cfg, distDir: .., .. })]:
    the spread copies every property of [cfg], then the four properties are
    set in the order of the object literal. *)
Definition configUpdate (cfg : Config) (packageManager : string) : Config :=
  <["beforeBuildCommand" := VStr (runner packageManager +:+ " build")]>
    (<["beforeDevCommand" := VStr (runner packageManager +:+ " start")]>
      (<["devPath" := VStr "../dist"]>
        (<["distDir" := VStr "../dist"]> cfg))).

(** The properties [configUpdate] sets. *)
Definition override_keys : list string :=
  ["distDir"; "devPath"; "beforeDevCommand"; "beforeBuildCommand"].

(** ** The world of the hooks *)

(** What the two hooks can change: the files on disk (path to content) and
    what was passed to [console.log], oldest first. *)
Record World : Type := mkWorld {
  fs : gmap string string;
  console : list JsVal
}.

(** A computation with effects on the world; it completes normally or
    throws, and what it did to the world before throwing stays done. *)
Definition Eff (A : Type) : Type := World -> World * Completion A.

Definition lift {A} (c : Completion A) : Eff A := fun w => (w, c).

Definition bind {A B} (m : Eff A) (k : A -> Eff B) : Eff B :=
  fun w =>
    match m w with
    | (w', Normal a) => k a w'
    | (w', Throw e) => (w', Throw e)
    end.

Notation "'let*' x ':=' m 'in' k" := (bind m (fun x => k))
  (at level 10, x name, m at level 100, k at level 200).

(** [try { body } catch (err) { handler }] *)
Definition try_catch {A} (body : Eff A) (handler : JsVal -> Eff A) : Eff A :=
  fun w =>
    match body w with
    | (w', Normal a) => (w', Normal a)
    | (w', Throw err) => handler err w'
    end.

(** [console.log(v)] *)
Definition console_log (v : JsVal) : Eff unit :=
  fun w => ({| fs := fs w; console := console w ++ [v] |}, Normal tt).

(** ** postInit *)

(** [postInit: async ({ cfg, packageManager }) => { .. }].  The template
    literal converts its substitutions to strings from left to right;
    [cfg.appName] is the one that is not a string already. *)
Definition postInit (cfg : Config) (packageManager : string) : Eff unit :=
  let setApp :=
    if String.eqb packageManager "npm"
    then "
set tauri script once
  $ npm set-script tauri tauri
    "
    else "" in
  let* appName := lift (ToString (get cfg "appName")) in
  console_log (VStr ("
change directory:
  $ cd " +:+ appName +:+ "
" +:+ setApp +:+ "
install dependencies:
  $ " +:+ packageManager +:+ " install

run the app:
  $ " +:+ runner packageManager +:+ " tauri " +:+
      (if String.eqb packageManager "npm" then "-- " else "") +:+ "dev
            ")).

(** ** configUpdate as an evaluation *)

(** A template literal with one substitution, [`${v}rest`]: the value is
    converted to a string, which may throw, and the rest is appended. *)
Definition template (v : JsVal) (rest : string) : Eff string :=
  let* s := lift (ToString v) in
  lift (Normal (s +:+ rest)).

(** The call [configUpdate({ cfg, packageManager })] as it runs in the world
    of the hooks.  The object literal is evaluated from top to bottom: the
    spread of [cfg], the two constant paths, then the two template literals,
    each with its conditional expression as the substitution. *)
Definition configUpdate_eval (cfg : Config) (packageManager : string) : Eff Config :=
  let spread := cfg in
  let distDir := VStr "../dist" in
  let devPath := VStr "../dist" in
  let* beforeDevCommand :=
    template (VStr (if String.eqb packageManager "yarn" then "yarn" else "npm run"))
      " start" in
  let* beforeBuildCommand :=
    template (VStr (if String.eqb packageManager "yarn" then "yarn" else "npm run"))
      " build" in
  lift (Normal
    (<["beforeBuildCommand" := VStr beforeBuildCommand]>
      (<["beforeDevCommand" := VStr beforeDevCommand]>
        (<["devPath" := devPath]>
          (<["distDir" := distDir]> spread))))).

(** ** path.join *)

(** Node's [path.join] in its POSIX form, which [preInit] imports: the
    arguments must be strings, the non-empty ones are joined with a slash and
    the result is normalised. *)

(** The segments of a path between its slashes. *)
Fixpoint split_slash (path : string) : list string :=
  match path with
  | "" => [""]
  | String c rest =>
      if Ascii.eqb c "/" then "" :: split_slash rest
      else match split_slash rest with
           | seg :: segs => String c seg :: segs
           | [] => [String c ""]
           end
  end.

Fixpoint join_slash (segs : list string) : string :=
  match segs with
  | [] => ""
  | [seg] => seg
  | seg :: segs' => seg +:+ "/" +:+ join_slash segs'
  end.

(** One segment of [normalizeString]; [res] holds the segments kept so far,
    the last one first. *)
Definition normalize_segment (allowAboveRoot : bool) (res : list string)
    (seg : string) : list string :=
  if String.eqb seg "" || String.eqb seg "." then res
  else if String.eqb seg ".." then
    match res with
    | last :: before =>
        if String.eqb last ".."
        then (if allowAboveRoot then ".." :: res else res)
        else before
    | [] => if allowAboveRoot then [".."] else []
    end
  else seg :: res.

Definition normalizeString (path : string) (allowAboveRoot : bool) : string :=
  join_slash (rev (fold_left (normalize_segment allowAboveRoot) (split_slash path) [])).

Definition starts_with_slash (path : string) : bool :=
  match path with
  | String c _ => Ascii.eqb c "/"
  | "" => false
  end.

Fixpoint ends_with_slash (path : string) : bool :=
  match path with
  | "" => false
  | String c "" => Ascii.eqb c "/"
  | String _ rest => ends_with_slash rest
  end.

Definition normalize (path : string) : string :=
  if String.eqb path "" then "."
  else
    let isAbsolute := starts_with_slash path in
    let trailingSeparator := ends_with_slash path in
    let path' := normalizeString path (negb isAbsolute) in
    if String.eqb path' "" then
      (if isAbsolute then "/" else if trailingSeparator then "./" else ".")
    else
      let path'' := if trailingSeparator then path' +:+ "/" else path' in
      if isAbsolute then "/" +:+ path'' else path''.

(** [join] once its arguments are known to be strings. *)
Definition join_strings (paths : list string) : string :=
  match filter (fun arg => arg ≠ "") paths with
  | [] => "."
  | joined => normalize (join_slash joined)
  end.

(** What Node shows of a value in an error message: [util.inspect], cut
    after 25 characters. *)
Definition inspected (shown : string) : string :=
  if Nat.ltb 25 (String.length shown)
  then String.substring 0 25 shown +:+ "..."
  else shown.

(** How the message of Node's ERR_INVALID_ARG_TYPE describes the value it
    received.  The branch for strings is not reached from [validateStrings]. *)
Definition received (actual : JsVal) : string :=
  match actual with
  | VUndefined => "undefined"
  | VNull => "null"
  | VBool b => "type boolean (" +:+ (if b then "true" else "false") +:+ ")"
  | VNum repr => "type number (" +:+ inspected repr +:+ ")"
  | VStr s => "type string (" +:+ inspected ("'" +:+ s +:+ "'") +:+ ")"
  | VSymbol description =>
      "type symbol (" +:+ inspected ("Symbol(" +:+ description +:+ ")") +:+ ")"
  | VError name _ => "an instance of " +:+ name
  end.

(** The TypeError (code ERR_INVALID_ARG_TYPE) of [validateString(actual,
    'path')]; its message names the argument in double quotes and describes
    the value received. *)
Definition invalid_path_argument (actual : JsVal) : JsVal :=
  VError "TypeError"
    ("The " +:+ String "034" "path" +:+ String "034"
       " argument must be of type string. Received " +:+ received actual).

(** The string arguments of a call, or the first argument that is not one. *)
Fixpoint validateStrings (args : list JsVal) : Completion (list string) :=
  match args with
  | [] => Normal []
  | VStr s :: args' =>
      match validateStrings args' with
      | Normal ss => Normal (s :: ss)
      | Throw e => Throw e
      end
  | actual :: _ => Throw (invalid_path_argument actual)
  end.

Definition join (args : list JsVal) : Completion string :=
  match validateStrings args with
  | Normal paths => Normal (join_strings paths)
  | Throw e => Throw e
  end.

(** ** preInit *)

(** The options object of [scaffe.generate]. *)
Record GenerateOptions : Type := mkGenerateOptions {
  overwrite : bool;
  variables : gmap string JsVal
}.

Section PreInit.

(** The directory of the module. *)
Variable __dirname : string.

(** [scaffe.generate(templateDir, outDir, options)] of the scaffe package:
    whatever it does to the world, and whether its promise is fulfilled or
    rejected. *)
Variable scaffe_generate : string -> string -> GenerateOptions -> Eff unit.

(** [preInit: async ({ cwd, cfg }) => { .. }].  The arguments of
    [scaffe.generate] are evaluated inside the [try] block, [templateDir]
    and [variables] before it. *)
Definition preInit (cwd : string) (cfg : Config) : Eff unit :=
  let appName := get cfg "appName" in
  let* templateDir := lift (join [VStr __dirname; VStr "../src/templates/vanilla"]) in
  let variables := {[ "name" := appName ]} in
  try_catch
    (let* outDir := lift (join [VStr cwd; appName]) in
     scaffe_generate templateDir outDir
       {| overwrite := true; variables := variables |})
    (fun err => console_log err).

End PreInit.

(** ** The instructions of postInit, as steps *)

(** The steps the printed instructions consist of. *)
Inductive Step : Type :=
  | ChangeDirectory
  | RegisterScript
  | InstallDependencies
  | RunApp.

(** The heading and the command line of each step. *)
Definition step_text (appName packageManager : string) (step : Step) : string :=
  match step with
  | ChangeDirectory => "change directory:
  $ cd " +:+ appName
  | RegisterScript => "set tauri script once
  $ npm set-script tauri tauri"
  | InstallDependencies => "install dependencies:
  $ " +:+ packageManager +:+ " install"
  | RunApp => "run the app:
  $ " +:+ runner packageManager +:+ " tauri " +:+
      (if String.eqb packageManager "npm" then "-- " else "") +:+ "dev"
  end.

(** The steps in the order the specification gives them: navigate, register
    the script (for npm only), install, run. *)
Definition instruction_steps (packageManager : string) : list Step :=
  [ChangeDirectory]
  ++ (if String.eqb packageManager "npm" then [RegisterScript] else [])
  ++ [InstallDependencies; RunApp].

(** Spaces and line feeds only. *)
Fixpoint blank (s : string) : bool :=
  match s with
  | "" => true
  | String c rest => (Ascii.eqb c " " || Ascii.eqb c "010") && blank rest
  end.

(** [laid_out text_of steps text]: [text] is the texts of [steps], in this
    order, with nothing but blank space before, between and after them. *)
Inductive laid_out (text_of : Step -> string) : list Step -> string -> Prop :=
  | laid_out_end (space : string) :
      blank space = true ->
      laid_out text_of [] space
  | laid_out_step (space : string) (step : Step) (steps : list Step) (rest : string) :
      blank space = true ->
      laid_out text_of steps rest ->
      laid_out text_of (step :: steps) (space +:+ text_of step +:+ rest).

(** ** Where generated files may go *)

(** The non-empty segments of a path. *)
Definition segments (path : string) : list string :=
  filter (fun seg => seg ≠ "") (split_slash path).

(** [path] is [root] or lies below it. *)
Definition within (root path : string) : Prop :=
  segments root `prefix_of` segments path.

(** The contract of a template generator: it creates, changes and removes
    files only in its output directory. *)
Definition writes_within (generate : string -> string -> GenerateOptions -> Eff unit) : Prop :=
  forall templateDir outDir options w path,
    fs (generate templateDir outDir options w).1 !! path ≠ fs w !! path ->
    within outDir path.

(** A generator that fails: it creates the output directory's marker file,
    then rejects. *)
Definition failing_generate (templateDir outDir : string) (options : GenerateOptions) : Eff unit :=
  fun w =>
    ({| fs := <[outDir +:+ "/.scaffe" := templateDir]> (fs w); console := console w |},
     Throw (VError "Error" "ENOENT")).

(** A generator that writes one file, whose content records the template
    directory and the value of the variable [name]. *)
Definition sample_generate (templateDir outDir : string) (options : GenerateOptions) : Eff unit :=
  fun w =>
    match ToString (default VUndefined (variables options !! "name")) with
    | Normal name =>
        ({| fs := <[outDir +:+ "/index.html" := templateDir +:+ "#" +:+ name]> (fs w);
            console := console w |}, Normal tt)
    | Throw e => (w, Throw e)
    end.

(** Sample inputs. *)
Definition empty_world : World := {| fs := ∅; console := [] |}.

Definition my_app_cfg : Config := {[ "appName" := VStr "my-app" ]}.

(** A world with a file on disk and a line on the console. *)
Definition used_world : World :=
  {| fs := {[ "/tmp/x/notes.txt" := "draft" ]}; console := [VStr "ready"] |}.


(** ** The recipe object *)

(** The shape of a recipe, as the object literal [vanillajs] fills it. *)
Module Recipe.
Record t : Type := mk {
  descriptiveName : string;
  shortName : string;
  configUpdate : Config -> string -> Config;
  extraNpmDevDependencies : list string;
  extraNpmDependencies : list string;
  preInit : string -> Config -> Eff unit;
  postInit : Config -> string -> Eff unit
}.
End Recipe.

(** [export const vanillajs: Recipe = { .. }], in a module located at
    [__dirname] and with the scaffe package it imports. *)
Definition vanillajs (__dirname : string)
    (scaffe_generate : string -> string -> GenerateOptions -> Eff unit) : Recipe.t :=
  {| Recipe.descriptiveName := "Vanilla.js";
     Recipe.shortName := "vanillajs";
     Recipe.configUpdate := configUpdate;
     Recipe.extraNpmDevDependencies := [];
     Recipe.extraNpmDependencies := [];
     Recipe.preInit := preInit __dirname scaffe_generate;
     Recipe.postInit := postInit |}.

(** ** Plain path segments *)

Fixpoint no_slash (s : string) : bool :=
  match s with
  | "" => true
  | String c rest => negb (Ascii.eqb c "/") && no_slash rest
  end.

(** A name that is one segment of a path: not empty, no slash in it, and
    neither of the two dot names. *)
Definition plain_segment (s : string) : bool :=
  negb (String.eqb s "") && negb (String.eqb s ".") && negb (String.eqb s "..")
  && no_slash s.

(** * Properties *)

(** ** configUpdate *)

Lemma runner_yarn : runner "yarn" = "yarn".
Proof. reflexivity. Qed.

Lemma runner_not_yarn (packageManager : string) :
  packageManager ≠ "yarn" -> runner packageManager = "npm run".
Proof.
  intros Hne. unfold runner.
  destruct (String.eqb_spec packageManager "yarn") as [Heq | _]; [contradiction | reflexivity].
Qed.

Lemma configUpdate_lookup (cfg : Config) (packageManager k : string) :
  configUpdate cfg packageManager !! k =
    if decide (k = "beforeBuildCommand") then Some (VStr (runner packageManager +:+ " build"))
    else if decide (k = "beforeDevCommand") then Some (VStr (runner packageManager +:+ " start"))
    else if decide (k = "devPath") then Some (VStr "../dist")
    else if decide (k = "distDir") then Some (VStr "../dist")
    else cfg !! k.
Proof.
  unfold configUpdate.
  repeat (case_decide; [subst k; by simplify_map_eq |]).
  by rewrite !lookup_insert_ne.
Qed.

(** C1: with package manager "yarn" the returned configuration has
    beforeDevCommand "yarn start" and beforeBuildCommand "yarn build"; with
    "npm" it has "npm run start" and "npm run build". *)
Theorem configUpdate_commands (cfg : Config) :
  configUpdate cfg "yarn" !! "beforeDevCommand" = Some (VStr "yarn start")
  ∧ configUpdate cfg "yarn" !! "beforeBuildCommand" = Some (VStr "yarn build")
  ∧ configUpdate cfg "npm" !! "beforeDevCommand" = Some (VStr "npm run start")
  ∧ configUpdate cfg "npm" !! "beforeBuildCommand" = Some (VStr "npm run build").
Proof. rewrite !configUpdate_lookup. repeat split. Qed.

(** C2: every key outside distDir, devPath, beforeDevCommand and
    beforeBuildCommand is mapped by the returned configuration to what the
    input configuration maps it to (to nothing, if the input has no such
    key). *)
Theorem configUpdate_preserves_other_keys (cfg : Config) (packageManager k : string) :
  k ∉ override_keys ->
  configUpdate cfg packageManager !! k = cfg !! k.
Proof.
  intros Hk. rewrite configUpdate_lookup.
  repeat (case_decide; [exfalso; apply Hk; subst k; unfold override_keys; set_solver |]).
  reflexivity.
Qed.

Lemma configUpdate_preserves_other_keys_witness :
  ("appName" ∉ override_keys)
  ∧ (configUpdate {[ "appName" := VStr "my-app"; "distDir" := VStr "build" ]} "npm" !! "appName"
     = ({[ "appName" := VStr "my-app"; "distDir" := VStr "build" ]} : Config) !! "appName").
Proof.
  assert (H : "appName" ∉ override_keys).
  { unfold override_keys. rewrite list_elem_of_In. simpl. intuition discriminate. }
  split; [exact H | exact (configUpdate_preserves_other_keys _ "npm" "appName" H)].
Defined.

(** C3: applying configUpdate to its own result, with the same package
    manager, gives that result again. *)
Theorem configUpdate_idempotent (cfg : Config) (packageManager : string) :
  configUpdate (configUpdate cfg packageManager) packageManager
  = configUpdate cfg packageManager.
Proof.
  apply map_eq. intros k. rewrite !configUpdate_lookup.
  repeat (case_decide; [reflexivity |]). reflexivity.
Qed.

Lemma configUpdate_same_lookups (cfg1 cfg2 : Config) (packageManager : string) :
  (forall k, cfg1 !! k = cfg2 !! k) ->
  configUpdate cfg1 packageManager = configUpdate cfg2 packageManager.
Proof.
  intros Hcfg. apply map_eq. intros k.
  rewrite !configUpdate_lookup, Hcfg. reflexivity.
Qed.

Lemma configUpdate_eval_pure (cfg : Config) (packageManager : string) (w : World) :
  configUpdate_eval cfg packageManager w = (w, Normal (configUpdate cfg packageManager)).
Proof. reflexivity. Qed.

(** C4: configUpdate is deterministic and depends on no hidden state or I/O:
    run in any two worlds (files, console) on configurations with the same
    keys and values and the same package manager, the two invocations return
    the same configuration, normally, and each leaves its world as it was,
    nothing written and nothing logged; the configuration returned is the
    one the function of the two arguments gives. *)
Theorem configUpdate_eval_deterministic (cfg1 cfg2 : Config) (pm1 pm2 : string)
    (w1 w2 : World) :
  (forall k, cfg1 !! k = cfg2 !! k) ->
  pm1 = pm2 ->
  (configUpdate_eval cfg1 pm1 w1).2 = (configUpdate_eval cfg2 pm2 w2).2
  ∧ (configUpdate_eval cfg1 pm1 w1).1 = w1
  ∧ (configUpdate_eval cfg2 pm2 w2).1 = w2
  ∧ (configUpdate_eval cfg1 pm1 w1).2 = Normal (configUpdate cfg1 pm1).
Proof.
  intros Hcfg <-. rewrite !configUpdate_eval_pure. simpl.
  rewrite (configUpdate_same_lookups _ _ pm1 Hcfg). repeat split.
Qed.

Lemma configUpdate_eval_deterministic_witness :
  (forall k : string,
     (<["a" := VNull]> (<["b" := VBool true]> ∅) : Config) !! k
     = (<["b" := VBool true]> (<["a" := VNull]> ∅) : Config) !! k)
  ∧ (configUpdate_eval (<["a" := VNull]> (<["b" := VBool true]> ∅)) "yarn" empty_world).2
    = (configUpdate_eval (<["b" := VBool true]> (<["a" := VNull]> ∅)) "yarn" used_world).2
  ∧ (configUpdate_eval (<["b" := VBool true]> (<["a" := VNull]> ∅)) "yarn" used_world).1
    = used_world.
Proof.
  assert (H : forall k : string,
            (<["a" := VNull]> (<["b" := VBool true]> ∅) : Config) !! k
            = (<["b" := VBool true]> (<["a" := VNull]> ∅) : Config) !! k).
  { intros k. rewrite !lookup_insert. repeat case_decide; congruence. }
  pose proof (configUpdate_eval_deterministic _ _ "yarn" "yarn" empty_world used_world
                H eq_refl) as (Hsame & _ & Hworld & _).
  split; [exact H |]. split; [exact Hsame | exact Hworld].
Defined.

(** C9: whatever the package manager, the returned configuration has distDir
    "../dist" and devPath "../dist". *)
Theorem configUpdate_dist_paths (cfg : Config) (packageManager : string) :
  configUpdate cfg packageManager !! "distDir" = Some (VStr "../dist")
  ∧ configUpdate cfg packageManager !! "devPath" = Some (VStr "../dist").
Proof. rewrite !configUpdate_lookup. split; reflexivity. Qed.

(** ** postInit *)

Lemma append_assoc (a b c : string) : (a +:+ b) +:+ c = a +:+ (b +:+ c).
Proof.
  induction a as [| ch a IH]; [reflexivity |].
  change (String ch ((a +:+ b) +:+ c) = String ch (a +:+ (b +:+ c))).
  by rewrite IH.
Qed.

(** What postInit does when [cfg.appName] converts to the string [appName]:
    one call of [console.log], normal completion. *)
Lemma postInit_logs (cfg : Config) (packageManager appName : string) (w : World) :
  ToString (get cfg "appName") = Normal appName ->
  postInit cfg packageManager w =
    ({| fs := fs w;
        console := console w ++ [VStr ("
change directory:
  $ cd " +:+ appName +:+ "
" +:+ (if String.eqb packageManager "npm" then "
set tauri script once
  $ npm set-script tauri tauri
    " else "") +:+ "
install dependencies:
  $ " +:+ packageManager +:+ " install

run the app:
  $ " +:+ runner packageManager +:+ " tauri " +:+
      (if String.eqb packageManager "npm" then "-- " else "") +:+ "dev
            ")] |}, Normal tt).
Proof. intros H. unfold postInit, bind, lift, console_log. rewrite H. reflexivity. Qed.

Lemma laid_out_eq (text_of : Step -> string) (steps : list Step) (text text' : string) :
  laid_out text_of steps text -> text = text' -> laid_out text_of steps text'.
Proof. by intros H <-. Qed.

(** The next step of a layout, after the blank [space]. *)
Ltac after_space space := apply (laid_out_step _ space); [reflexivity |].

(** Two texts that differ in how their pieces are bracketed. *)
Ltac same_text := cbv beta iota; rewrite !append_assoc; reflexivity.

Lemma register_step_iff_npm (packageManager : string) :
  RegisterScript ∈ instruction_steps packageManager <-> packageManager = "npm".
Proof.
  unfold instruction_steps.
  destruct (String.eqb_spec packageManager "npm") as [-> | Hne]; simpl.
  - split; [done | intros _; set_solver].
  - split; [| done]. intros Hin. exfalso.
    apply elem_of_cons in Hin as [Hin | Hin]; [discriminate |].
    apply elem_of_cons in Hin as [Hin | Hin]; [discriminate |].
    apply elem_of_cons in Hin as [Hin | Hin]; [discriminate |].
    by apply elem_of_nil in Hin.
Qed.

(** C5: the text postInit writes consists of the directory-change step, then
    the script-registration step, which is there if and only if the package
    manager is "npm", then the install step, then the run step, in this
    order and with blank space only around them.  (The configuration's
    appName is one that converts to a string.) *)
Theorem postInit_steps_in_order (cfg : Config) (packageManager appName : string) (w : World) :
  ToString (get cfg "appName") = Normal appName ->
  exists text : string,
    postInit cfg packageManager w
      = ({| fs := fs w; console := console w ++ [VStr text] |}, Normal tt)
    ∧ laid_out (step_text appName packageManager) (instruction_steps packageManager) text
    ∧ instruction_steps packageManager
      = ([ChangeDirectory]
         ++ (if decide (packageManager = "npm") then [RegisterScript] else [])
         ++ [InstallDependencies; RunApp])%list
    ∧ (RegisterScript ∈ instruction_steps packageManager <-> packageManager = "npm").
Proof.
  intros Happ. eexists. split; [exact (postInit_logs _ _ _ _ Happ) |].
  split; [| split; [| apply register_step_iff_npm]].
  - unfold instruction_steps, step_text.
    destruct (String.eqb packageManager "npm"); simpl.
    + eapply laid_out_eq.
      * after_space "
". after_space "

". after_space "
    
". after_space "

". apply (laid_out_end _ "
            "). reflexivity.
      * same_text.
    + eapply laid_out_eq.
      * after_space "
". after_space "

". after_space "

". apply (laid_out_end _ "
            "). reflexivity.
      * same_text.
  - unfold instruction_steps.
    destruct (String.eqb_spec packageManager "npm") as [-> | Hne]; [reflexivity |].
    destruct (decide (packageManager = "npm")); [contradiction | reflexivity].
Qed.

Lemma postInit_steps_in_order_witness :
  ToString (get my_app_cfg "appName") = Normal "my-app"
  ∧ exists text : string,
      postInit my_app_cfg "npm" empty_world
        = ({| fs := ∅; console := [VStr text] |}, Normal tt)
      ∧ laid_out (step_text "my-app" "npm") (instruction_steps "npm") text
      ∧ instruction_steps "npm" = [ChangeDirectory; RegisterScript; InstallDependencies; RunApp]
      ∧ (RegisterScript ∈ instruction_steps "npm" <-> "npm" = "npm").
Proof.
  split; [reflexivity |].
  exact (postInit_steps_in_order my_app_cfg "npm" "my-app" empty_world eq_refl).
Defined.





(** C10: every package manager other than "yarn" gets the npm commands from
    configUpdate, while postInit prints the script-registration step and the
    "-- " separator of the run step for "npm" and for no other package
    manager. *)
Theorem non_yarn_fallback (cfg : Config) (packageManager : string) :
  (packageManager ≠ "yarn" ->
   configUpdate cfg packageManager !! "beforeDevCommand" = Some (VStr "npm run start")
   ∧ configUpdate cfg packageManager !! "beforeBuildCommand" = Some (VStr "npm run build"))
  ∧ (forall (w : World) (appName : string),
       ToString (get cfg "appName") = Normal appName ->
       postInit cfg packageManager w
         = ({| fs := fs w;
               console := console w ++ [VStr (
                 if decide (packageManager = "npm") then "
change directory:
  $ cd " +:+ appName +:+ "

set tauri script once
  $ npm set-script tauri tauri
    
install dependencies:
  $ npm install

run the app:
  $ npm run tauri -- dev
            "
                 else "
change directory:
  $ cd " +:+ appName +:+ "

install dependencies:
  $ " +:+ packageManager +:+ " install

run the app:
  $ " +:+ runner packageManager +:+ " tauri dev
            ")] |}, Normal tt)).
Proof.
  split.
  - intros Hne. rewrite !configUpdate_lookup, (runner_not_yarn _ Hne). split; reflexivity.
  - intros w appName Happ. rewrite (postInit_logs _ _ _ _ Happ).
    destruct (String.eqb_spec packageManager "npm") as [-> | Hne].
    + reflexivity.
    + destruct (decide (packageManager = "npm")); [contradiction | reflexivity].
Qed.

Lemma non_yarn_fallback_witness :
  "pnpm" ≠ "yarn"
  ∧ configUpdate my_app_cfg "pnpm" !! "beforeDevCommand" = Some (VStr "npm run start")
  ∧ configUpdate my_app_cfg "pnpm" !! "beforeBuildCommand" = Some (VStr "npm run build")
  ∧ ToString (get my_app_cfg "appName") = Normal "my-app"
  ∧ postInit my_app_cfg "pnpm" empty_world
      = ({| fs := ∅;
            console := [VStr "
change directory:
  $ cd my-app

install dependencies:
  $ pnpm install

run the app:
  $ npm run tauri dev
            "] |}, Normal tt).
Proof.
  assert (Hne : "pnpm" ≠ "yarn") by discriminate.
  split; [exact Hne |].
  split; [exact (proj1 (proj1 (non_yarn_fallback my_app_cfg "pnpm") Hne)) |].
  split; [exact (proj2 (proj1 (non_yarn_fallback my_app_cfg "pnpm") Hne)) |].
  split; [reflexivity |].
  exact (proj2 (non_yarn_fallback my_app_cfg "pnpm") empty_world "my-app" eq_refl).
Defined.

(** ** preInit *)

Lemma split_slash_nonempty (path : string) : split_slash path ≠ [].
Proof.
  destruct path as [| c rest]; simpl; [discriminate |].
  destruct (Ascii.eqb c "/"); [discriminate |].
  destruct (split_slash rest); discriminate.
Qed.

Lemma split_slash_child (root name : string) :
  split_slash (root +:+ "/" +:+ name) = (split_slash root ++ split_slash name)%list.
Proof.
  induction root as [| c root IH]; [reflexivity |].
  change (String c root +:+ "/" +:+ name) with (String c (root +:+ "/" +:+ name)).
  simpl. rewrite IH.
  destruct (Ascii.eqb c "/"); [reflexivity |].
  pose proof (split_slash_nonempty root) as Hne.
  destruct (split_slash root); [contradiction | reflexivity].
Qed.

Lemma within_child (root name : string) : within root (root +:+ "/" +:+ name).
Proof.
  unfold within, segments. rewrite split_slash_child, filter_app.
  apply prefix_app_r. reflexivity.
Qed.

Section PreInitProperties.

Variable __dirname : string.
Variable scaffe_generate : string -> string -> GenerateOptions -> Eff unit.

Lemma preInit_string_appName (cwd appName : string) (cfg : Config) (w : World) :
  get cfg "appName" = VStr appName ->
  preInit __dirname scaffe_generate cwd cfg w
  = try_catch (scaffe_generate
         (join_strings [__dirname; "../src/templates/vanilla"])
         (join_strings [cwd; appName])
         {| overwrite := true; variables := {[ "name" := VStr appName ]} |})
      console_log w.
Proof. intros Happ. unfold preInit. rewrite Happ. reflexivity. Qed.

Lemma preInit_completes (cwd : string) (cfg : Config) (w : World) :
  (preInit __dirname scaffe_generate cwd cfg w).2 = Normal tt.
Proof.
  unfold preInit, bind, lift, try_catch, console_log. simpl.
  destruct (get cfg "appName"); simpl; try reflexivity.
  destruct (scaffe_generate _ _ _ w) as [w' [[] | err]]; reflexivity.
Qed.

(** C6: preInit never ends by throwing; when the generation of the
    template throws [err], preInit passes [err] to console.log and
    completes normally, in the world the failed generation left. *)
Theorem preInit_catches_generation_error (cwd : string) (cfg : Config) (w : World) :
  (preInit __dirname scaffe_generate cwd cfg w).2 = Normal tt
  ∧ (forall (appName : string) (w' : World) (err : JsVal),
       get cfg "appName" = VStr appName ->
       scaffe_generate
         (join_strings [__dirname; "../src/templates/vanilla"])
         (join_strings [cwd; appName])
         {| overwrite := true; variables := {[ "name" := VStr appName ]} |} w
         = (w', Throw err) ->
       preInit __dirname scaffe_generate cwd cfg w
         = ({| fs := fs w'; console := console w' ++ [err] |}, Normal tt)).
Proof.
  split; [apply preInit_completes |].
  intros appName w' err Happ Hgen.
  rewrite (preInit_string_appName _ _ _ _ Happ).
  unfold try_catch. rewrite Hgen. reflexivity.
Qed.

(** C7: preInit calls the generation once, with the output directory
    join(cwd, appName) (which is /tmp/x/my-app for /tmp/x and my-app), the
    template directory of the recipe and the variable name = appName; so the
    files preInit writes are those this call writes, and with a generator
    that writes inside its output directory only, all of them lie in
    join(cwd, appName). *)
Theorem preInit_generates_in_app_directory (cwd appName : string) (cfg : Config) (w : World) :
  get cfg "appName" = VStr appName ->
  preInit __dirname scaffe_generate cwd cfg w
    = try_catch
        (scaffe_generate
           (join_strings [__dirname; "../src/templates/vanilla"])
           (join_strings [cwd; appName])
           {| overwrite := true; variables := {[ "name" := VStr appName ]} |})
        console_log w
  ∧ fs (preInit __dirname scaffe_generate cwd cfg w).1
    = fs (scaffe_generate
            (join_strings [__dirname; "../src/templates/vanilla"])
            (join_strings [cwd; appName])
            {| overwrite := true; variables := {[ "name" := VStr appName ]} |} w).1
  ∧ (writes_within scaffe_generate ->
     forall path : string,
       fs (preInit __dirname scaffe_generate cwd cfg w).1 !! path ≠ fs w !! path ->
       within (join_strings [cwd; appName]) path)
  ∧ join_strings ["/tmp/x"; "my-app"] = "/tmp/x/my-app".
Proof.
  intros Happ.
  assert (Hfs : fs (preInit __dirname scaffe_generate cwd cfg w).1
                = fs (scaffe_generate
         (join_strings [__dirname; "../src/templates/vanilla"])
         (join_strings [cwd; appName])
         {| overwrite := true; variables := {[ "name" := VStr appName ]} |} w).1).
  { rewrite (preInit_string_appName _ _ _ _ Happ). unfold try_catch.
    destruct (scaffe_generate _ _ _ w) as [w' [[] | err]]; reflexivity. }
  split; [exact (preInit_string_appName _ _ _ _ Happ) |].
  split; [exact Hfs |].
  split; [| reflexivity].
  intros Hwithin path Hpath. rewrite Hfs in Hpath.
  exact (Hwithin _ _ _ _ _ Hpath).
Qed.

End PreInitProperties.

Lemma failing_generate_writes_within : writes_within failing_generate.
Proof.
  intros templateDir outDir options w path Hpath. simpl in Hpath.
  destruct (decide (path = outDir +:+ "/.scaffe")) as [-> | Hne].
  - apply within_child.
  - by rewrite lookup_insert_ne in Hpath.
Qed.

Lemma sample_generate_writes_within : writes_within sample_generate.
Proof.
  intros templateDir outDir options w path Hpath. unfold sample_generate in Hpath.
  destruct (ToString _); simpl in Hpath; [| done].
  destruct (decide (path = outDir +:+ "/index.html")) as [-> | Hne].
  - apply within_child.
  - by rewrite lookup_insert_ne in Hpath.
Qed.

Lemma preInit_catches_generation_error_witness :
  get my_app_cfg "appName" = VStr "my-app"
  ∧ failing_generate "/opt/cta/src/templates/vanilla" "/tmp/x/my-app"
      {| overwrite := true; variables := {[ "name" := VStr "my-app" ]} |} empty_world
    = ({| fs := {[ "/tmp/x/my-app/.scaffe" := "/opt/cta/src/templates/vanilla" ]};
          console := [] |}, Throw (VError "Error" "ENOENT"))
  ∧ preInit "/opt/cta/dist" failing_generate "/tmp/x" my_app_cfg empty_world
    = ({| fs := {[ "/tmp/x/my-app/.scaffe" := "/opt/cta/src/templates/vanilla" ]};
          console := [VError "Error" "ENOENT"] |}, Normal tt).
Proof.
  split; [reflexivity |]. split; [reflexivity |].
  exact (proj2 (preInit_catches_generation_error "/opt/cta/dist" failing_generate
                  "/tmp/x" my_app_cfg empty_world)
           "my-app" _ (VError "Error" "ENOENT") eq_refl eq_refl).
Defined.

Lemma preInit_generates_in_app_directory_witness :
  get my_app_cfg "appName" = VStr "my-app"
  ∧ writes_within sample_generate
  ∧ fs (preInit "/opt/cta/dist" sample_generate "/tmp/x" my_app_cfg empty_world).1
    = {[ "/tmp/x/my-app/index.html" := "/opt/cta/src/templates/vanilla#my-app" ]}
  ∧ (forall path : string,
       fs (preInit "/opt/cta/dist" sample_generate "/tmp/x" my_app_cfg empty_world).1 !! path
         ≠ fs empty_world !! path ->
       within "/tmp/x/my-app" path).
Proof.
  pose proof (preInit_generates_in_app_directory "/opt/cta/dist" sample_generate
                "/tmp/x" "my-app" my_app_cfg empty_world eq_refl) as (_ & Hfs & Hin & _).
  split; [reflexivity |].
  split; [exact sample_generate_writes_within |].
  split; [exact Hfs |].
  exact (Hin sample_generate_writes_within).
Defined.

(** * Further properties *)

(** ** configUpdate and the keys of the configuration *)

(** X1: the returned configuration has the keys of the input and the four
    keys configUpdate sets, and no others; no key is removed. *)
Theorem configUpdate_dom (cfg : Config) (packageManager : string) :
  dom (configUpdate cfg packageManager) = dom cfg ∪ list_to_set override_keys.
Proof.
  unfold configUpdate, override_keys. rewrite !dom_insert_L. simpl.
  apply set_eq. intros k. set_unfold. tauto.
Qed.

(** X2: of two applications of configUpdate the later one decides: what an
    earlier application with another package manager wrote is overwritten. *)
Theorem configUpdate_last_wins (cfg : Config) (pm1 pm2 : string) :
  configUpdate (configUpdate cfg pm1) pm2 = configUpdate cfg pm2.
Proof.
  apply map_eq. intros k. rewrite !configUpdate_lookup.
  repeat (case_decide; [reflexivity |]). reflexivity.
Qed.

(** X3: configUpdate returns its input unchanged exactly when the input
    holds the four values already. *)
Theorem configUpdate_fixed_point (cfg : Config) (packageManager : string) :
  configUpdate cfg packageManager = cfg
  <-> (cfg !! "distDir" = Some (VStr "../dist")
       ∧ cfg !! "devPath" = Some (VStr "../dist")
       ∧ cfg !! "beforeDevCommand" = Some (VStr (runner packageManager +:+ " start"))
       ∧ cfg !! "beforeBuildCommand" = Some (VStr (runner packageManager +:+ " build"))).
Proof.
  split.
  - intros Heq.
    repeat split; rewrite <- Heq at 1; rewrite configUpdate_lookup; reflexivity.
  - intros (Hdist & Hdev & Hstart & Hbuild). apply map_eq. intros k.
    rewrite configUpdate_lookup.
    repeat (case_decide; [subst k; congruence |]). reflexivity.
Qed.

Lemma configUpdate_fixed_point_witness :
  configUpdate (configUpdate my_app_cfg "yarn") "yarn" = configUpdate my_app_cfg "yarn"
  ∧ configUpdate my_app_cfg "yarn" !! "beforeDevCommand" = Some (VStr "yarn start").
Proof.
  assert (H : configUpdate (configUpdate my_app_cfg "yarn") "yarn"
              = configUpdate my_app_cfg "yarn").
  { apply (proj2 (configUpdate_fixed_point (configUpdate my_app_cfg "yarn") "yarn")).
    repeat split; reflexivity. }
  split; [exact H |].
  exact (proj1 (proj2 (proj2
    (proj1 (configUpdate_fixed_point (configUpdate my_app_cfg "yarn") "yarn") H)))).
Defined.

Lemma runner_eq_iff (pm1 pm2 : string) :
  runner pm1 = runner pm2 <-> (pm1 = "yarn" <-> pm2 = "yarn").
Proof.
  unfold runner.
  destruct (String.eqb_spec pm1 "yarn") as [-> | H1],
           (String.eqb_spec pm2 "yarn") as [-> | H2]; split; try done.
  - intros Hiff. destruct H2. by apply Hiff.
  - intros Hiff. destruct H1. by apply Hiff.
Qed.

(** X4: the package manager matters to configUpdate only in being "yarn" or
    not: two package managers give the same configuration exactly when both
    are "yarn" or neither is. *)
Theorem configUpdate_package_manager (cfg : Config) (pm1 pm2 : string) :
  configUpdate cfg pm1 = configUpdate cfg pm2 <-> (pm1 = "yarn" <-> pm2 = "yarn").
Proof.
  rewrite <- runner_eq_iff. split.
  - intros Heq.
    assert (Hk : configUpdate cfg pm1 !! "beforeDevCommand"
                 = configUpdate cfg pm2 !! "beforeDevCommand") by (by rewrite Heq).
    rewrite !configUpdate_lookup in Hk. simpl in Hk. unfold runner in *.
    destruct (String.eqb pm1 "yarn"), (String.eqb pm2 "yarn");
      try reflexivity; vm_compute in Hk; discriminate.
  - intros Heq. unfold configUpdate. by rewrite Heq.
Qed.

Lemma configUpdate_package_manager_witness :
  ("npm" = "yarn" <-> "pnpm" = "yarn")
  ∧ configUpdate my_app_cfg "npm" = configUpdate my_app_cfg "pnpm".
Proof.
  assert (H : "npm" = "yarn" <-> "pnpm" = "yarn") by (split; discriminate).
  split; [exact H |].
  exact (proj2 (configUpdate_package_manager my_app_cfg "npm" "pnpm") H).
Defined.

(** X5: configUpdate commutes with setting or removing a key outside its
    four: it makes no difference whether such a key is changed before or
    after. *)
Theorem configUpdate_commutes_other_key (cfg : Config) (packageManager k : string) (v : JsVal) :
  k ∉ override_keys ->
  configUpdate (<[k := v]> cfg) packageManager = <[k := v]> (configUpdate cfg packageManager)
  ∧ configUpdate (delete k cfg) packageManager = delete k (configUpdate cfg packageManager).
Proof.
  intros Hk.
  assert (Hne : k ≠ "beforeBuildCommand" ∧ k ≠ "beforeDevCommand"
                ∧ k ≠ "devPath" ∧ k ≠ "distDir").
  { unfold override_keys in Hk. rewrite list_elem_of_In in Hk. simpl in Hk.
    repeat split; intros ->; apply Hk; tauto. }
  destruct Hne as (H1 & H2 & H3 & H4).
  split; apply map_eq; intros j; rewrite configUpdate_lookup.
  - destruct (decide (j = k)) as [-> | Hj].
    + rewrite !lookup_insert_eq. repeat (case_decide; [contradiction |]). reflexivity.
    + rewrite !lookup_insert_ne, configUpdate_lookup by done. reflexivity.
  - destruct (decide (j = k)) as [-> | Hj].
    + rewrite !lookup_delete_eq. repeat (case_decide; [contradiction |]). reflexivity.
    + rewrite !lookup_delete_ne, configUpdate_lookup by done. reflexivity.
Qed.

Lemma configUpdate_commutes_other_key_witness :
  ("windowTitle" ∉ override_keys)
  ∧ configUpdate (<["windowTitle" := VStr "My App"]> my_app_cfg) "npm"
    = <["windowTitle" := VStr "My App"]> (configUpdate my_app_cfg "npm")
  ∧ configUpdate (delete "windowTitle" my_app_cfg) "npm"
    = delete "windowTitle" (configUpdate my_app_cfg "npm").
Proof.
  assert (H : "windowTitle" ∉ override_keys).
  { unfold override_keys. rewrite list_elem_of_In. simpl. intuition discriminate. }
  split; [exact H |].
  exact (configUpdate_commutes_other_key my_app_cfg "npm" "windowTitle" (VStr "My App") H).
Defined.

(** X6: what the input holds under one of the four keys has no effect on
    the result: a value set there before configUpdate is discarded, and so is
    the absence of the key. *)
Theorem configUpdate_discards_overridden (cfg : Config) (packageManager k : string) (v : JsVal) :
  k ∈ override_keys ->
  configUpdate (<[k := v]> cfg) packageManager = configUpdate cfg packageManager
  ∧ configUpdate (delete k cfg) packageManager = configUpdate cfg packageManager.
Proof.
  intros Hk.
  assert (Hcase : k = "beforeBuildCommand" ∨ k = "beforeDevCommand"
                  ∨ k = "devPath" ∨ k = "distDir").
  { unfold override_keys in Hk. rewrite list_elem_of_In in Hk. simpl in Hk.
    intuition congruence. }
  split; apply map_eq; intros j; rewrite !configUpdate_lookup.
  - repeat (case_decide; [reflexivity |]).
    rewrite lookup_insert_ne; [reflexivity |]. intuition congruence.
  - repeat (case_decide; [reflexivity |]).
    rewrite lookup_delete_ne; [reflexivity |]. intuition congruence.
Qed.

Lemma configUpdate_discards_overridden_witness :
  ("distDir" ∈ override_keys)
  ∧ configUpdate (<["distDir" := VStr "build"]> my_app_cfg) "npm"
    = configUpdate my_app_cfg "npm"
  ∧ configUpdate (delete "distDir" my_app_cfg) "npm" = configUpdate my_app_cfg "npm".
Proof.
  assert (H : "distDir" ∈ override_keys).
  { unfold override_keys. rewrite list_elem_of_In. simpl. tauto. }
  split; [exact H |].
  exact (configUpdate_discards_overridden my_app_cfg "npm" "distDir" (VStr "build") H).
Defined.

(** ** postInit and the world *)

(** X7: postInit never touches the files.  It either completes normally,
    having added one string to the console, or throws, having added
    nothing; what was on the console before stays. *)
Theorem postInit_effects (cfg : Config) (packageManager : string) (w : World) :
  fs (postInit cfg packageManager w).1 = fs w
  ∧ (((postInit cfg packageManager w).2 = Normal tt
      ∧ exists text : string,
          console (postInit cfg packageManager w).1 = (console w ++ [VStr text])%list)
     ∨ ((exists err : JsVal, (postInit cfg packageManager w).2 = Throw err)
        ∧ console (postInit cfg packageManager w).1 = console w)).
Proof.
  unfold postInit, bind, lift, console_log.
  destruct (ToString (get cfg "appName")) as [appName | err]; simpl.
  - split; [reflexivity |]. left. split; [reflexivity |]. eexists. reflexivity.
  - split; [reflexivity |]. right. split; [by exists err | reflexivity].
Qed.

Lemma postInit_reads_appName_only (cfg1 cfg2 : Config) (packageManager : string) (w : World) :
  ToString (get cfg1 "appName") = ToString (get cfg2 "appName") ->
  postInit cfg1 packageManager w = postInit cfg2 packageManager w.
Proof. intros H. unfold postInit, bind, lift. rewrite H. reflexivity. Qed.

(** X8: a configuration without an appName is no error for postInit: it
    prints what it prints for the appName "undefined".  In general postInit
    uses nothing of the configuration but the string form of appName. *)
Theorem postInit_missing_appName (cfg : Config) (packageManager : string) (w : World) :
  (cfg !! "appName" = None ->
   postInit cfg packageManager w
   = postInit (<["appName" := VStr "undefined"]> cfg) packageManager w)
  ∧ (forall cfg' : Config,
       ToString (get cfg "appName") = ToString (get cfg' "appName") ->
       postInit cfg packageManager w = postInit cfg' packageManager w).
Proof.
  split.
  - intros Hnone. apply postInit_reads_appName_only.
    unfold get. rewrite Hnone, lookup_insert_eq. reflexivity.
  - intros cfg'. apply postInit_reads_appName_only.
Qed.

Lemma postInit_missing_appName_witness :
  (∅ : Config) !! "appName" = None
  ∧ postInit ∅ "yarn" empty_world
    = ({| fs := ∅;
          console := [VStr "
change directory:
  $ cd undefined

install dependencies:
  $ yarn install

run the app:
  $ yarn tauri dev
            "] |}, Normal tt)
  ∧ postInit ∅ "yarn" empty_world = postInit {[ "appName" := VUndefined ]} "yarn" empty_world.
Proof.
  assert (H : (∅ : Config) !! "appName" = None) by reflexivity.
  split; [exact H |].
  split.
  - rewrite (proj1 (postInit_missing_appName ∅ "yarn" empty_world) H). reflexivity.
  - apply (proj2 (postInit_missing_appName ∅ "yarn" empty_world)).
    vm_compute. reflexivity.
Defined.

Lemma get_appName_configUpdate (cfg : Config) (packageManager : string) :
  get (configUpdate cfg packageManager) "appName" = get cfg "appName".
Proof. unfold get. rewrite configUpdate_lookup. reflexivity. Qed.

(** X9: postInit prints the same for the configuration configUpdate returns
    as for the one it was given, whichever package manager either is called
    with. *)
Theorem postInit_after_configUpdate (cfg : Config) (pm pm' : string) (w : World) :
  postInit (configUpdate cfg pm) pm' w = postInit cfg pm' w.
Proof.
  apply postInit_reads_appName_only. by rewrite get_appName_configUpdate.
Qed.

(** ** Paths made of plain segments *)

Lemma plain_segment_inv (s : string) :
  plain_segment s = true ->
  s ≠ "" ∧ String.eqb s "" = false ∧ String.eqb s "." = false
  ∧ String.eqb s ".." = false ∧ no_slash s = true.
Proof.
  unfold plain_segment. rewrite !andb_true_iff, !negb_true_iff.
  intros [[[H1 H2] H3] H4]. repeat split; try done.
  intros ->. discriminate.
Qed.

Lemma split_slash_no_slash (s : string) : no_slash s = true -> split_slash s = [s].
Proof.
  induction s as [| c s IH]; [reflexivity |].
  simpl. rewrite andb_true_iff, negb_true_iff. intros [Hc Hs].
  by rewrite Hc, (IH Hs).
Qed.

Lemma split_slash_join_slash (segs : list string) :
  segs ≠ [] ->
  Forall (fun s => plain_segment s = true) segs ->
  split_slash (join_slash segs) = segs.
Proof.
  induction segs as [| seg segs IH]; [done |]. intros _ Hall.
  apply Forall_cons in Hall as [Hseg Hall].
  apply plain_segment_inv in Hseg as (_ & _ & _ & _ & Hseg).
  destruct segs as [| seg' segs].
  - by apply split_slash_no_slash.
  - change (join_slash (seg :: seg' :: segs))
      with (seg +:+ "/" +:+ join_slash (seg' :: segs)).
    rewrite split_slash_child, IH by done.
    by rewrite (split_slash_no_slash _ Hseg).
Qed.

(** The pieces of an absolute path of plain segments: an empty piece before
    the leading slash (two for the root itself), then the segments. *)
Lemma split_slash_absolute (segs : list string) :
  Forall (fun s => plain_segment s = true) segs ->
  Forall (fun s => s = "" ∨ plain_segment s = true) (split_slash ("/" +:+ join_slash segs))
  ∧ segments ("/" +:+ join_slash segs) = segs.
Proof.
  intros Hall. unfold segments.
  change (split_slash ("/" +:+ join_slash segs))
    with ("" :: split_slash (join_slash segs)).
  destruct segs as [| seg segs].
  - split; [| reflexivity]. repeat constructor.
  - rewrite split_slash_join_slash by done. split.
    + constructor; [by left |]. eapply Forall_impl; [exact Hall |]. by right.
    + rewrite filter_cons_False by (intros H; by apply H).
      induction Hall as [| s l Hs Hl IHl]; [reflexivity |].
      apply plain_segment_inv in Hs as (Hs & _).
      by rewrite filter_cons_True, IHl.
Qed.

Lemma fold_normalize_segment (allowAboveRoot : bool) (pieces res : list string) :
  Forall (fun s => s = "" ∨ plain_segment s = true) pieces ->
  fold_left (normalize_segment allowAboveRoot) pieces res
  = (rev (filter (fun s => s ≠ "") pieces) ++ res)%list.
Proof.
  intros Hall. revert res.
  induction Hall as [| s l Hs Hl IH]; intros res; [reflexivity |].
  simpl. destruct Hs as [-> | Hs].
  - rewrite filter_cons_False by (intros H; by apply H). apply IH.
  - apply plain_segment_inv in Hs as (Hne & He & Hd & Hdd & _).
    rewrite filter_cons_True by done.
    unfold normalize_segment at 2. rewrite He, Hd, Hdd. simpl.
    rewrite IH, <- app_assoc. reflexivity.
Qed.

Lemma normalizeString_plain (path : string) (allowAboveRoot : bool) :
  Forall (fun s => s = "" ∨ plain_segment s = true) (split_slash path) ->
  normalizeString path allowAboveRoot = join_slash (segments path).
Proof.
  intros Hall. unfold normalizeString, segments.
  by rewrite (fold_normalize_segment _ _ _ Hall), app_nil_r, rev_involutive.
Qed.

Lemma append_not_empty (a b : string) : b ≠ "" -> a +:+ b ≠ "".
Proof. intros Hb. destruct a; [exact Hb | discriminate]. Qed.

Lemma ends_with_slash_append (a b : string) :
  b ≠ "" -> ends_with_slash (a +:+ b) = ends_with_slash b.
Proof.
  intros Hb. induction a as [| c a IH]; [reflexivity |].
  change (String c a +:+ b) with (String c (a +:+ b)).
  pose proof (append_not_empty a b Hb) as Hne.
  simpl. destruct (a +:+ b); [done | exact IH].
Qed.

Lemma ends_with_slash_no_slash (s : string) : no_slash s = true -> ends_with_slash s = false.
Proof.
  induction s as [| c s IH]; [reflexivity |].
  simpl. rewrite andb_true_iff, negb_true_iff. intros [Hc Hs].
  destruct s; [exact Hc | by apply IH].
Qed.

Lemma join_slash_snoc (segs : list string) (name : string) :
  join_slash (segs ++ [name])
  = match segs with [] => name | _ => join_slash segs +:+ "/" +:+ name end.
Proof.
  induction segs as [| seg segs IH]; [reflexivity |].
  destruct segs as [| seg' segs]; [reflexivity |].
  change (join_slash ((seg :: seg' :: segs) ++ [name]))
    with (seg +:+ "/" +:+ join_slash ((seg' :: segs) ++ [name])).
  rewrite IH.
  change (join_slash (seg :: seg' :: segs))
    with (seg +:+ "/" +:+ join_slash (seg' :: segs)).
  by rewrite !append_assoc.
Qed.

Lemma join_slash_plain_tail (segs : list string) (name : string) :
  plain_segment name = true ->
  join_slash (segs ++ [name]) ≠ "" ∧ ends_with_slash (join_slash (segs ++ [name])) = false.
Proof.
  intros Hname. apply plain_segment_inv in Hname as (Hne & _ & _ & _ & Hns).
  rewrite join_slash_snoc. destruct segs as [| seg segs].
  - split; [exact Hne | by apply ends_with_slash_no_slash].
  - assert (Htail : "/" +:+ name ≠ "") by discriminate.
    split.
    + by apply append_not_empty.
    + rewrite ends_with_slash_append by done.
      rewrite (ends_with_slash_append "/" name Hne).
      by apply ends_with_slash_no_slash.
Qed.

Lemma eqb_not_empty (s : string) : s ≠ "" -> String.eqb s "" = false.
Proof. intros H. by destruct s. Qed.

(** [path.join] of an absolute path of plain segments and one more plain
    segment appends the segment. *)
Lemma join_strings_plain (segs : list string) (name : string) :
  Forall (fun s => plain_segment s = true) segs ->
  plain_segment name = true ->
  join_strings ["/" +:+ join_slash segs; name] = "/" +:+ join_slash (segs ++ [name]).
Proof.
  intros Hsegs Hname.
  pose proof (plain_segment_inv _ Hname) as (Hne & _ & _ & _ & Hns).
  pose proof (join_slash_plain_tail segs name Hname) as [Hjoin Hend].
  destruct (split_slash_absolute segs Hsegs) as [Hpieces Hsegments].
  unfold join_strings.
  rewrite filter_cons_True by discriminate.
  rewrite filter_cons_True by done.
  rewrite filter_nil.
  change (join_slash ["/" +:+ join_slash segs; name])
    with (("/" +:+ join_slash segs) +:+ "/" +:+ name).
  assert (Hall : Forall (fun s => s = "" ∨ plain_segment s = true)
                   (split_slash (("/" +:+ join_slash segs) +:+ "/" +:+ name))).
  { rewrite split_slash_child, (split_slash_no_slash _ Hns).
    apply Forall_app. split; [exact Hpieces |]. constructor; [by right | constructor]. }
  assert (Hseg : segments (("/" +:+ join_slash segs) +:+ "/" +:+ name) = (segs ++ [name])%list).
  { unfold segments. rewrite split_slash_child, (split_slash_no_slash _ Hns), filter_app.
    fold (segments ("/" +:+ join_slash segs)). rewrite Hsegments.
    by rewrite filter_cons_True, filter_nil. }
  unfold normalize.
  rewrite (normalizeString_plain _ _ Hall), Hseg.
  change (String.eqb (("/" +:+ join_slash segs) +:+ "/" +:+ name) "") with false.
  change (starts_with_slash (("/" +:+ join_slash segs) +:+ "/" +:+ name)) with true.
  cbv zeta. rewrite (eqb_not_empty _ Hjoin).
  assert (Hpath_end : ends_with_slash (("/" +:+ join_slash segs) +:+ "/" +:+ name) = false).
  { assert (Htail : "/" +:+ name ≠ "") by discriminate.
    rewrite ends_with_slash_append by done.
    rewrite (ends_with_slash_append "/" name Hne).
    by apply ends_with_slash_no_slash. }
  rewrite Hpath_end. reflexivity.
Qed.

(** [path.join] of an absolute path of plain segments and the empty string
    is that path. *)
Lemma join_strings_empty_name (segs : list string) :
  Forall (fun s => plain_segment s = true) segs ->
  join_strings ["/" +:+ join_slash segs; ""] = "/" +:+ join_slash segs.
Proof.
  intros Hsegs.
  destruct (split_slash_absolute segs Hsegs) as [Hpieces Hsegments].
  unfold join_strings.
  rewrite filter_cons_True by discriminate.
  rewrite filter_cons_False by (intros H; by apply H).
  rewrite filter_nil.
  change (join_slash ["/" +:+ join_slash segs]) with ("/" +:+ join_slash segs).
  unfold normalize.
  rewrite (normalizeString_plain _ _ Hpieces), Hsegments.
  change (String.eqb ("/" +:+ join_slash segs) "") with false.
  change (starts_with_slash ("/" +:+ join_slash segs)) with true.
  cbv zeta.
  destruct (decide (segs = [])) as [-> | Hne]; [reflexivity |].
  destruct (exists_last Hne) as (init & last & ->).
  apply Forall_app in Hsegs as [_ Hlast]. apply Forall_cons in Hlast as [Hlast _].
  destruct (join_slash_plain_tail init last Hlast) as [Hjoin Hend].
  rewrite (eqb_not_empty _ Hjoin), (ends_with_slash_append "/" _ Hjoin), Hend.
  reflexivity.
Qed.

(** ** preInit: what it reads, and where it generates *)

Section PreInitFurther.

Variable __dirname : string.
Variable scaffe_generate : string -> string -> GenerateOptions -> Eff unit.

(** X10: preInit does the same for the configuration configUpdate returns
    as for the one it was given: the hooks can run before or after the
    configuration is updated. *)
Theorem preInit_after_configUpdate (cwd : string) (cfg : Config) (pm : string) (w : World) :
  preInit __dirname scaffe_generate cwd (configUpdate cfg pm) w
  = preInit __dirname scaffe_generate cwd cfg w.
Proof. unfold preInit. rewrite get_appName_configUpdate. reflexivity. Qed.

(** X11: when appName is not a string (for one, when the configuration has
    none) preInit does not generate anything, whatever the generator: the
    TypeError of path.join is caught and logged, the files are untouched and
    preInit completes normally. *)
Theorem preInit_appName_not_string (cwd : string) (cfg : Config) (w : World) :
  (forall s : string, get cfg "appName" ≠ VStr s) ->
  exists message : string,
    preInit __dirname scaffe_generate cwd cfg w
    = ({| fs := fs w; console := console w ++ [VError "TypeError" message] |},
       Normal tt).
Proof.
  intros Hstr. unfold preInit.
  destruct (get cfg "appName") as [| | b | repr | s | description | name message];
    try (eexists; reflexivity).
  by destruct (Hstr s).
Qed.

(** X12: when the generation succeeds preInit adds nothing of its own: it
    leaves the world as the generator left it, with no line logged. *)
Theorem preInit_generation_succeeds (cwd appName : string) (cfg : Config) (w w' : World) :
  get cfg "appName" = VStr appName ->
  scaffe_generate
    (join_strings [__dirname; "../src/templates/vanilla"])
    (join_strings [cwd; appName])
    {| overwrite := true; variables := {[ "name" := VStr appName ]} |} w
    = (w', Normal tt) ->
  preInit __dirname scaffe_generate cwd cfg w = (w', Normal tt).
Proof.
  intros Happ Hgen. rewrite (preInit_string_appName _ _ _ _ _ _ Happ).
  unfold try_catch. rewrite Hgen. reflexivity.
Qed.

(** X13: with a working directory that is an absolute path of plain
    segments and an appName that is one plain segment (not empty, no slash,
    not . or ..), preInit generates into the working directory's child of
    that name; with a generator that writes inside its output directory
    only, every file preInit writes lies inside the working directory. *)
Theorem preInit_plain_appName (segs : list string) (appName : string) (cfg : Config) (w : World) :
  Forall (fun s => plain_segment s = true) segs ->
  plain_segment appName = true ->
  get cfg "appName" = VStr appName ->
  preInit __dirname scaffe_generate ("/" +:+ join_slash segs) cfg w
    = try_catch
        (scaffe_generate
           (join_strings [__dirname; "../src/templates/vanilla"])
           ("/" +:+ join_slash (segs ++ [appName]))
           {| overwrite := true; variables := {[ "name" := VStr appName ]} |})
        console_log w
  ∧ within ("/" +:+ join_slash segs) ("/" +:+ join_slash (segs ++ [appName]))
  ∧ (writes_within scaffe_generate ->
     forall path : string,
       fs (preInit __dirname scaffe_generate ("/" +:+ join_slash segs) cfg w).1 !! path
         ≠ fs w !! path ->
       within ("/" +:+ join_slash segs) path).
Proof.
  intros Hsegs Hname Happ.
  assert (Hall : Forall (fun s => plain_segment s = true) (segs ++ [appName])).
  { apply Forall_app. split; [exact Hsegs | by constructor]. }
  assert (Hin : within ("/" +:+ join_slash segs) ("/" +:+ join_slash (segs ++ [appName]))).
  { unfold within.
    rewrite (proj2 (split_slash_absolute _ Hsegs)), (proj2 (split_slash_absolute _ Hall)).
    by apply prefix_app_r. }
  assert (Hpre : preInit __dirname scaffe_generate ("/" +:+ join_slash segs) cfg w
    = try_catch
        (scaffe_generate
           (join_strings [__dirname; "../src/templates/vanilla"])
           ("/" +:+ join_slash (segs ++ [appName]))
           {| overwrite := true; variables := {[ "name" := VStr appName ]} |})
        console_log w).
  { rewrite (preInit_string_appName _ _ _ _ _ _ Happ).
    by rewrite (join_strings_plain _ _ Hsegs Hname). }
  split; [exact Hpre |]. split; [exact Hin |].
  intros Hcontract path Hpath. rewrite Hpre in Hpath. unfold try_catch in Hpath.
  unfold within in *. etrans; [exact Hin |].
  apply (Hcontract (join_strings [__dirname; "../src/templates/vanilla"])
           ("/" +:+ join_slash (segs ++ [appName]))
           {| overwrite := true; variables := {[ "name" := VStr appName ]} |} w).
  destruct (scaffe_generate _ _ _ w) as [w' [[] | err]]; exact Hpath.
Qed.

(** X14: an empty appName is accepted: preInit then generates into the
    working directory itself (an absolute path of plain segments). *)
Theorem preInit_empty_appName (segs : list string) (cfg : Config) (w : World) :
  Forall (fun s => plain_segment s = true) segs ->
  get cfg "appName" = VStr "" ->
  preInit __dirname scaffe_generate ("/" +:+ join_slash segs) cfg w
  = try_catch
      (scaffe_generate
         (join_strings [__dirname; "../src/templates/vanilla"])
         ("/" +:+ join_slash segs)
         {| overwrite := true; variables := {[ "name" := VStr "" ]} |})
      console_log w.
Proof.
  intros Hsegs Happ. rewrite (preInit_string_appName _ _ _ _ _ _ Happ).
  by rewrite (join_strings_empty_name _ Hsegs).
Qed.

End PreInitFurther.

Lemma preInit_appName_not_string_witness :
  (forall s : string, get (∅ : Config) "appName" ≠ VStr s)
  ∧ exists message : string,
      preInit "/opt/cta/dist" sample_generate "/tmp/x" ∅ empty_world
      = ({| fs := ∅; console := [VError "TypeError" message] |}, Normal tt).
Proof.
  assert (H : forall s : string, get (∅ : Config) "appName" ≠ VStr s)
    by (intros s; vm_compute; discriminate).
  split; [exact H |].
  exact (preInit_appName_not_string "/opt/cta/dist" sample_generate "/tmp/x" ∅ empty_world H).
Defined.

Lemma preInit_generation_succeeds_witness :
  get my_app_cfg "appName" = VStr "my-app"
  ∧ preInit "/opt/cta/dist" sample_generate "/tmp/x" my_app_cfg empty_world
    = ({| fs := {[ "/tmp/x/my-app/index.html" := "/opt/cta/src/templates/vanilla#my-app" ]};
          console := [] |}, Normal tt).
Proof.
  split; [reflexivity |].
  exact (preInit_generation_succeeds "/opt/cta/dist" sample_generate "/tmp/x" "my-app"
           my_app_cfg empty_world _ eq_refl eq_refl).
Defined.

Lemma preInit_plain_appName_witness :
  Forall (fun s => plain_segment s = true) ["tmp"; "x"]
  ∧ plain_segment "my-app" = true
  ∧ get my_app_cfg "appName" = VStr "my-app"
  ∧ writes_within sample_generate
  ∧ within "/tmp/x" "/tmp/x/my-app"
  ∧ (forall path : string,
       fs (preInit "/opt/cta/dist" sample_generate "/tmp/x" my_app_cfg empty_world).1 !! path
         ≠ fs empty_world !! path ->
       within "/tmp/x" path).
Proof.
  assert (Hsegs : Forall (fun s => plain_segment s = true) ["tmp"; "x"])
    by (repeat constructor).
  pose proof (preInit_plain_appName "/opt/cta/dist" sample_generate ["tmp"; "x"] "my-app"
                my_app_cfg empty_world Hsegs eq_refl eq_refl) as (_ & Hin & Hfiles).
  split; [exact Hsegs |]. split; [reflexivity |]. split; [reflexivity |].
  split; [exact sample_generate_writes_within |].
  split; [exact Hin |].
  exact (Hfiles sample_generate_writes_within).
Defined.

Lemma preInit_empty_appName_witness :
  Forall (fun s => plain_segment s = true) ["tmp"; "x"]
  ∧ get (<["appName" := VStr ""]> my_app_cfg) "appName" = VStr ""
  ∧ fs (preInit "/opt/cta/dist" sample_generate "/tmp/x"
          (<["appName" := VStr ""]> my_app_cfg) empty_world).1
    = {[ "/tmp/x/index.html" := "/opt/cta/src/templates/vanilla#" ]}.
Proof.
  assert (Hsegs : Forall (fun s => plain_segment s = true) ["tmp"; "x"])
    by (repeat constructor).
  assert (Happ : get (<["appName" := VStr ""]> my_app_cfg) "appName" = VStr "")
    by reflexivity.
  split; [exact Hsegs |]. split; [exact Happ |].
  exact (eq_trans
           (f_equal (fun r : World * Completion unit => fs r.1)
              (preInit_empty_appName "/opt/cta/dist" sample_generate ["tmp"; "x"]
                 (<["appName" := VStr ""]> my_app_cfg) empty_world Hsegs Happ))
           eq_refl).
Defined.
